(** * Streaming task planner (poc/backend/main.py)

    A shallow embedding of the proof-of-concept task planner: the LangGraph
    loop built from [generate_task_node] and [should_continue], the values
    stream of that graph, and the NDJSON generator [task_stream_generator]
    that reveals each task card progressively.

    Python strings are modelled as lists of characters ([str]); slicing
    [s[:n]] is [firstn n s] and [len] is [length].  The LLM is an external
    oracle: a run is fixed by the outcome of each call, indexed by call
    number ([oracle n]), and by the random bits drawn by [uuid.uuid4()] at
    that call ([rand n]).  Since the loop is sequential and every call's
    input (prompt and tasks so far) is determined by the previous outcomes,
    these sequences range over every possible oracle behaviour. *)

From Stdlib Require Import Ascii String.
From Stdlib Require Import List Arith Lia ZArith Bool.
Import ListNotations.

Definition str := list ascii.

Definition s (x : string) : str := list_ascii_of_string x.

(** ** Pydantic models *)

(** [class Task(BaseModel)] *)
Record Task := mkTask {
  id : str;
  title : str;
  description : str;
  tags : list str
}.

(** [class TaskGeneration(BaseModel)]: the structured LLM output. *)
Record TaskGeneration := mkTaskGeneration {
  task : option Task;
  is_finished : bool
}.

(** Outcome of [structured_llm.invoke(...)]: a parsed [TaskGeneration], or
    an exception (transport error, quota, malformed output that fails
    validation), carrying [str(e)]. *)
Inductive Invoke :=
| Returned (result : TaskGeneration)
| Raised (e : str).

(** [class AgentState(TypedDict)] *)
Record AgentState := mkAgentState {
  prompt : str;
  tasks : list Task;
  finished : bool
}.

(** A node's return value: a partial dict of state keys.  LangGraph
    overwrites the keys present (no reducers are declared) and keeps the
    others. *)
Record Update := mkUpdate {
  upd_tasks : option (list Task);
  upd_finished : option bool
}.

Definition apply_update (st : AgentState) (u : Update) : AgentState :=
  mkAgentState (prompt st)
    (match upd_tasks u with Some t => t | None => tasks st end)
    (match upd_finished u with Some b => b | None => finished st end).

(** ** [uuid.uuid4()] and [str(uuid)] *)

(** [UUID(bytes=os.urandom(16), version=4)]: the random 128-bit integer
    with the variant and version bits forced. *)
Definition uuid4 (r : Z) : Z :=
  let i := Z.land r (Z.ones 128) in
  let i := Z.land i (Z.lnot (Z.shiftl 49152 48)) in   (* ~(0xc000 << 48) *)
  let i := Z.lor i (Z.shiftl 32768 48) in             (* 0x8000 << 48 *)
  let i := Z.land i (Z.lnot (Z.shiftl 61440 64)) in   (* ~(0xf000 << 64) *)
  Z.lor i (Z.shiftl 4 76).                            (* version << 76 *)

Definition hex_digit (d : Z) : ascii :=
  if Z.ltb d 10 then ascii_of_nat (48 + Z.to_nat d)
  else ascii_of_nat (87 + Z.to_nat d).

(** ['%032x' % self.int] *)
Definition hex32 (i : Z) : str :=
  map (fun k => hex_digit (Z.land (Z.shiftr i (Z.of_nat (4 * (31 - k)))) 15))
      (seq 0 32).

Definition slice (a b : nat) (l : str) : str := firstn (b - a) (skipn a l).

(** [UUID.__str__]: the hex split 8-4-4-4-12 with dashes. *)
Definition uuid_str (i : Z) : str :=
  let h := hex32 i in
  let dash := s "-"%string in
  slice 0 8 h ++ dash ++ slice 8 12 h ++ dash ++ slice 12 16 h ++ dash
    ++ slice 16 20 h ++ dash ++ skipn 20 h.

(** ** The planner node *)

Definition set_id (t : Task) (i : str) : Task :=
  mkTask i (title t) (description t) (tags t).

(** [if not result.task.id: result.task.id = str(uuid.uuid4())] *)
Definition ensure_id (t : Task) (rnd : Z) : Task :=
  match id t with
  | [] => set_id t (uuid_str (uuid4 rnd))
  | _ => t
  end.

(** [generate_task_node]: [res] is the outcome of the LLM call made by this
    node, [rnd] the bits [uuid4] would draw. *)
Definition generate_task_node (res : Invoke) (rnd : Z) (state : AgentState)
  : Update :=
  let current_tasks := tasks state in
  match res with
  | Raised _ => mkUpdate None (Some true)
  | Returned result =>
      if is_finished result then mkUpdate None (Some true)
      else match task result with
           | Some t =>
               mkUpdate (Some (current_tasks ++ [ensure_id t rnd])) (Some false)
           | None => mkUpdate None (Some true)
           end
  end.

(** ** The conditional edge *)

Inductive Route := END | planner.

Definition max_tasks : nat := 10.

(** [should_continue] *)
Definition should_continue (state : AgentState) : Route :=
  if finished state then END
  else if max_tasks <=? length (tasks state) then END
  else planner.

(** ** The compiled graph, streamed with [stream_mode="values"]

    The stream yields the input state, then the full state after each
    execution of the [planner] node.  LangGraph aborts a run with
    [GraphRecursionError] once [recursion_limit] (default 25) steps are
    used up; the exception surfaces from the stream after the states
    already yielded. *)

Definition recursion_limit : nat := 25.

Definition recursion_error : str :=
  s "Recursion limit of 25 reached without hitting a stop condition."%string.

Section Graph.

Variable oracle : nat -> Invoke.
Variable rand : nat -> Z.

Fixpoint run_planner (fuel call : nat) (st : AgentState)
  : list AgentState * option str :=
  match fuel with
  | O => ([], Some recursion_error)
  | S f =>
      let st' := apply_update st
                   (generate_task_node (oracle call) (rand call) st) in
      match should_continue st' with
      | END => ([st'], None)
      | planner =>
          let '(l, e) := run_planner f (S call) st' in (st' :: l, e)
      end
  end.

Definition initial_state (project_prompt : str) : AgentState :=
  mkAgentState project_prompt [] false.

(** [langgraph_app.astream(initial_state, stream_mode="values")]: the
    states yielded, and the exception raised after them, if any. *)
Definition astream (project_prompt : str) : list AgentState * option str :=
  let s0 := initial_state project_prompt in
  let '(l, e) := run_planner recursion_limit 0 s0 in (s0 :: l, e).

End Graph.

(** ** Frames of the NDJSON stream

    Each yielded chunk is [f"data: {json.dumps(d)}\n\n".encode()] for a dict
    [d]; a frame is that dict.  Task-shape dicts come from [Task.dict()]
    (with [description] possibly replaced), status-shape dicts are
    [{'status': 'completed'}] and [{'status': 'error', 'detail': str(e)}]. *)

Inductive Frame :=
| TaskFrame (f_id f_title f_description : str) (f_tags : list str)
| StatusFrame (status : str) (detail : option str).

(** [new_task.dict()] with its [description] set to [d]. *)
Definition task_frame (t : Task) (d : str) : Frame :=
  TaskFrame (id t) (title t) d (tags t).

Definition status_completed : Frame := StatusFrame (s "completed") None.

Definition status_error (e : str) : Frame := StatusFrame (s "error") (Some e).

Definition is_status (f : Frame) : bool :=
  match f with StatusFrame _ _ => true | TaskFrame _ _ _ _ => false end.

Definition frame_id (f : Frame) : option str :=
  match f with TaskFrame i _ _ _ => Some i | StatusFrame _ _ => None end.

Definition frame_desc (f : Frame) : str :=
  match f with TaskFrame _ _ d _ => d | StatusFrame _ _ => [] end.

(** Python's [range(start, stop, step)] for [step > 0]. *)
Fixpoint range_aux (fuel j stop step : nat) : list nat :=
  match fuel with
  | O => []
  | S f => if j <? stop then j :: range_aux f (j + step) stop step else []
  end.

Definition py_range (start stop step : nat) : list nat :=
  range_aux (stop - start) start stop step.

Definition chunk_size : nat := 4.

(** The "UI simulation" block of [task_stream_generator] for one task:
    the structure with an empty description, one frame per chunk with
    [full_description[:j+chunk_size]], then [new_task.dict()]. *)
Definition reveal (new_task : Task) : list Frame :=
  let full_description := description new_task in
  [task_frame new_task []]
  ++ map (fun j => task_frame new_task (firstn (j + chunk_size) full_description))
         (py_range 0 (length full_description) chunk_size)
  ++ [task_frame new_task full_description].

Definition default_task : Task := mkTask [] [] [] [].

(** The body of [async for state_change in ...]: [num_tasks_sent] is the
    generator's counter; the boolean result records a [break]. *)
Fixpoint gen_states (states : list AgentState) (num_tasks_sent : nat)
  : list Frame * bool :=
  match states with
  | [] => ([], false)
  | state_change :: rest =>
      let current_tasks := tasks state_change in
      let new_frames :=
        if num_tasks_sent <? length current_tasks
        then flat_map (fun i => reveal (nth i current_tasks default_task))
                      (py_range num_tasks_sent (length current_tasks) 1)
        else [] in
      let sent :=
        if num_tasks_sent <? length current_tasks
        then length current_tasks else num_tasks_sent in
      if finished state_change then (new_frames ++ [status_completed], true)
      else let '(fr, brk) := gen_states rest sent in (new_frames ++ fr, brk)
  end.

(** [task_stream_generator]: the frames yielded for a prompt.  An exception
    raised by the stream is caught by the outer [try] and reported as an
    error frame; after a [break] the stream is not pulled again. *)
Definition task_stream_generator (oracle : nat -> Invoke) (rand : nat -> Z)
  (project_prompt : str) : list Frame :=
  let '(states, exc) := astream oracle rand project_prompt in
  let '(fr, brk) := gen_states states 0 in
  if brk then fr
  else match exc with
       | Some e => fr ++ [status_error e]
       | None => fr
       end.

(** Final state of a run: the last state the stream yields. *)
Definition final_state (oracle : nat -> Invoke) (rand : nat -> Z)
  (project_prompt : str) : AgentState :=
  last (fst (astream oracle rand project_prompt)) (initial_state project_prompt).

(** Number of LLM calls of a run: one per state after the input state. *)
Definition oracle_calls (oracle : nat -> Invoke) (rand : nat -> Z)
  (project_prompt : str) : nat :=
  length (fst (astream oracle rand project_prompt)) - 1.

(** Strict prefix of a string. *)
Definition strict_prefix (a b : str) : Prop :=
  exists c, c <> [] /\ b = a ++ c.

Definition ceil_div (a b : nat) : nat := (a + b - 1) / b.

(** ** Concrete runs *)

Definition mk (i t d : string) : Task := mkTask (s i) (s t) (s d) [s "Backend"].

Definition returns (t : Task) : Invoke := Returned (mkTaskGeneration (Some t) false).

(** The LLM returns a new task on every call. *)
Definition always_task : nat -> Invoke :=
  fun n => returns (mk "t" "Task" "abcdef").

(** The LLM returns two tasks, then its third call raises. *)
Definition third_call_fails : nat -> Invoke :=
  fun n => match n with
           | 0 => returns (mk "a" "A" "abcde")
           | 1 => returns (mk "" "B" "")
           | _ => Raised (s "503 Service Unavailable")
           end.

Definition no_rand : nat -> Z := fun _ => 0%Z.

(** ** The user message of [generate_task_node] *)

Definition ch (n : nat) : ascii := ascii_of_nat n.

Definition nl : str := [ch 10].

(** ["\n".join(items)], and [", ".join(items)] with another separator. *)
Fixpoint join (sep : str) (items : list str) : str :=
  match items with
  | [] => []
  | [x] => x
  | x :: rest => x ++ sep ++ join sep rest
  end.

(** [f"- {t.title}: {t.description}"] *)
Definition task_line (t : Task) : str :=
  s "- " ++ title t ++ s ": " ++ description t.

(** [task_history = "\n".join([... for t in current_tasks])] *)
Definition task_history (current_tasks : list Task) : str :=
  join nl (map task_line current_tasks).

(** The f-string [user_message]; an empty [task_history] is falsy and is
    replaced by the placeholder. *)
Definition user_message (prompt : str) (current_tasks : list Task) : str :=
  let h := task_history current_tasks in
  s "Project Idea: " ++ prompt ++ nl ++ nl
  ++ s "    Already Generated Tasks:" ++ nl
  ++ s "    " ++ (match h with [] => s "No tasks generated yet." | _ => h end)
  ++ nl ++ nl
  ++ s "    Generate the next task or finish the plan." ++ nl
  ++ s "    ".

(** ** Bytes of a frame: [f"data: {json.dumps(d, default=str)}\n\n"]

    [json.dumps] with its defaults ([ensure_ascii=True], separators
    [", "] and [": "]); keys in insertion order, which for [Task.dict()]
    is the field order. *)

(** ['\\u{0:04x}'.format(n)] digits *)
Definition hex4 (n : nat) : str :=
  map (fun k => hex_digit (Z.of_nat ((n / 16 ^ (3 - k)) mod 16))) (seq 0 4).

(** [ESCAPE_DCT] of the [json] encoder, applied to every character outside
    [' '..'~'], and to the double quote and the backslash. *)
Definition json_escape_char (c : ascii) : str :=
  let n := nat_of_ascii c in
  let bs := ch 92 in
  if n =? 92 then [bs; bs]
  else if n =? 34 then [bs; ch 34]
  else if n =? 8 then [bs; "b"%char]
  else if n =? 12 then [bs; "f"%char]
  else if n =? 10 then [bs; "n"%char]
  else if n =? 13 then [bs; "r"%char]
  else if n =? 9 then [bs; "t"%char]
  else if (n <? 32) || (126 <? n) then bs :: "u"%char :: hex4 n
  else [c].

(** [json.dumps] of a [str] *)
Definition json_string (x : str) : str :=
  [ch 34] ++ flat_map json_escape_char x ++ [ch 34].

(** [json.dumps] of a [list] of [str] *)
Definition json_list (xs : list str) : str :=
  s "[" ++ join (s ", ") (map json_string xs) ++ s "]".

Definition json_key (k : string) : str := json_string (s k) ++ s ": ".

(** [json.dumps] of a frame dict *)
Definition json_frame (f : Frame) : str :=
  match f with
  | TaskFrame i t d tg =>
      s "{" ++ json_key "id" ++ json_string i
      ++ s ", " ++ json_key "title" ++ json_string t
      ++ s ", " ++ json_key "description" ++ json_string d
      ++ s ", " ++ json_key "tags" ++ json_list tg ++ s "}"
  | StatusFrame st None =>
      s "{" ++ json_key "status" ++ json_string st ++ s "}"
  | StatusFrame st (Some d) =>
      s "{" ++ json_key "status" ++ json_string st
      ++ s ", " ++ json_key "detail" ++ json_string d ++ s "}"
  end.

(** One yielded chunk: [f"data: {...}\n\n".encode("utf-8")]; every
    character of [json.dumps] output is ASCII, encoded as one byte. *)
Definition sse_chunk (f : Frame) : str :=
  s "data: " ++ json_frame f ++ nl ++ nl.

(** The bytes of the whole response body. *)
Definition stream_bytes (oracle : nat -> Invoke) (rand : nat -> Z)
  (project_prompt : str) : str :=
  flat_map sse_chunk (task_stream_generator oracle rand project_prompt).





(** An LLM call that the node treats as "no task": it raised, or it
    returned neither a task nor the finished flag. *)
Definition malformed_or_raised (r : Invoke) : Prop :=
  match r with
  | Raised _ => True
  | Returned g => is_finished g = false /\ task g = None
  end.

(** One step of the planner loop between two yielded states. *)
Definition step_ok (a b : AgentState) : Prop :=
  (tasks b = tasks a \/ exists t, tasks b = tasks a ++ [t])
  /\ (finished a = true -> finished b = true)
  /\ length (tasks b) <= max_tasks.

Fixpoint steps_ok (a : AgentState) (l : list AgentState) : Prop :=
  match l with
  | [] => True
  | b :: l' => step_ok a b /\ steps_ok b l'
  end.

(** The task [generate_task_node] appends for an LLM outcome, before its
    id is filled: [result.task] when [is_finished] is false and a task is
    present; [None] on every path returning [{"finished": True}]. *)
Definition returned_task (r : Invoke) : option Task :=
  match r with
  | Raised _ => None
  | Returned g => if is_finished g then None else task g
  end.

(** The tasks of the leading run of calls, from call [call] on and at most
    [n] of them, that each return a task (with its id filled). *)
Fixpoint planned (oracle : nat -> Invoke) (rand : nat -> Z) (n call : nat)
  : list Task :=
  match n with
  | O => []
  | S n' =>
      match returned_task (oracle call) with
      | Some t => ensure_id t (rand call) :: planned oracle rand n' (S call)
      | None => []
      end
  end.

(** * Lemmas *)

(** ** Ranges, slices and the reveal of one task *)

Lemma ceil_div_0 (step : nat) : 0 < step -> ceil_div 0 step = 0.
Proof. intros H. unfold ceil_div. apply Nat.div_small. lia. Qed.

Lemma ceil_div_S (n step : nat) :
  0 < step -> 0 < n -> ceil_div n step = S (ceil_div (n - step) step).
Proof.
  intros Hs Hn. unfold ceil_div.
  destruct (le_lt_dec step n) as [Hle | Hlt].
  - replace (n + step - 1) with ((n - step + step - 1) + 1 * step) by lia.
    rewrite Nat.div_add by lia. lia.
  - replace (n - step) with 0 by lia.
    replace (n + step - 1) with ((n - 1) + 1 * step) by lia.
    rewrite Nat.div_add by lia.
    rewrite (Nat.div_small (n - 1)) by lia.
    rewrite (Nat.div_small (0 + step - 1)) by lia. reflexivity.
Qed.

Lemma range_aux_spec (step : nat) :
  0 < step ->
  forall fuel j stop, stop - j <= fuel ->
  range_aux fuel j stop step
  = map (fun i => j + step * i) (seq 0 (ceil_div (stop - j) step)).
Proof.
  intros Hs fuel. induction fuel as [|f IH]; intros j stop Hf; simpl.
  - replace (stop - j) with 0 by lia. now rewrite ceil_div_0.
  - destruct (j <? stop) eqn:E.
    + apply Nat.ltb_lt in E.
      rewrite IH by lia. rewrite (ceil_div_S (stop - j)) by lia.
      replace (stop - j - step) with (stop - (j + step)) by lia.
      simpl. f_equal; [lia|].
      rewrite <- seq_shift, map_map. apply map_ext. intros. lia.
    + apply Nat.ltb_ge in E.
      replace (stop - j) with 0 by lia. now rewrite ceil_div_0.
Qed.

Lemma py_range_step (start stop step : nat) :
  0 < step ->
  py_range start stop step
  = map (fun i => start + step * i) (seq 0 (ceil_div (stop - start) step)).
Proof. intros Hs. unfold py_range. apply range_aux_spec; lia. Qed.

Lemma map_add_seq (a b n : nat) :
  map (fun i => a + i) (seq b n) = seq (a + b) n.
Proof.
  revert b. induction n as [|n IH]; intros b; simpl; [reflexivity|].
  rewrite IH. f_equal. f_equal. lia.
Qed.

Lemma py_range_1 (start stop : nat) :
  py_range start stop 1 = seq start (stop - start).
Proof.
  rewrite py_range_step by lia.
  unfold ceil_div. rewrite Nat.add_sub, Nat.div_1_r.
  rewrite <- (Nat.add_0_r start) at 2. rewrite <- map_add_seq.
  apply map_ext. intros. lia.
Qed.

Lemma map_nth_seq_skipn (A : Type) (d : A) (l : list A) :
  forall a, map (fun i => nth i l d) (seq a (length l - a)) = skipn a l.
Proof.
  induction l as [|x l IH]; intros a; simpl.
  - destruct a; reflexivity.
  - destruct a as [|a].
    + simpl. f_equal. rewrite <- seq_shift, map_map. simpl.
      specialize (IH 0). rewrite Nat.sub_0_r in IH. exact IH.
    + rewrite <- seq_shift, map_map. simpl. apply IH.
Qed.

Lemma skipn_length_app (A : Type) (a b : list A) :
  skipn (length a) (a ++ b) = b.
Proof. induction a as [|x a IH]; simpl; auto. Qed.

Lemma flat_map_compose (A B C : Type) (g : B -> list C) (h : A -> B) (l : list A) :
  flat_map (fun x => g (h x)) l = flat_map g (map h l).
Proof. induction l as [|x l IH]; simpl; congruence. Qed.

(** The new tasks of a state, as the generator's inner loop reveals them. *)
Lemma new_frames_eq (prev ts : list Task) :
  (if length prev <? length (prev ++ ts)
   then flat_map (fun i => reveal (nth i (prev ++ ts) default_task))
                 (py_range (length prev) (length (prev ++ ts)) 1)
   else []) = flat_map reveal ts.
Proof.
  destruct (length prev <? length (prev ++ ts)) eqn:E.
  - rewrite py_range_1, flat_map_compose, map_nth_seq_skipn.
    now rewrite skipn_length_app.
  - apply Nat.ltb_ge in E. rewrite length_app in E.
    destruct ts; [reflexivity | simpl in E; lia].
Qed.

Lemma new_frames_sent (prev ts : list Task) :
  (if length prev <? length (prev ++ ts) then length (prev ++ ts)
   else length prev) = length (prev ++ ts).
Proof.
  destruct (length prev <? length (prev ++ ts)) eqn:E; [reflexivity|].
  apply Nat.ltb_ge in E. rewrite length_app in *. lia.
Qed.

Lemma firstn_min_length (A : Type) (n : nat) (l : list A) :
  firstn (Nat.min (length l) n) l = firstn n l.
Proof.
  destruct (Nat.min_spec (length l) n) as [[H ->] | [_ ->]]; [|reflexivity].
  rewrite firstn_all, firstn_all2 by lia. reflexivity.
Qed.

Lemma firstn_strict_prefix (a b : nat) (l : str) :
  a < b -> a < length l -> strict_prefix (firstn a l) (firstn b l).
Proof.
  intros Hab Hal. exists (firstn (b - a) (skipn a l)). split.
  - intros H. apply (f_equal (@length ascii)) in H.
    rewrite length_firstn, length_skipn in H. simpl in H. lia.
  - rewrite <- (firstn_skipn a l) at 1.
    rewrite firstn_app, firstn_firstn, length_firstn.
    replace (Nat.min b a) with a by lia.
    replace (Nat.min a (length l)) with a by lia. reflexivity.
Qed.

(** [reveal] with the [range] unfolded: [k = ceil(L / 4)] chunk frames. *)
Lemma reveal_eq (t : Task) :
  reveal t
  = task_frame t []
    :: map (fun i => task_frame t (firstn (i * chunk_size + chunk_size)
                                          (description t)))
           (seq 0 (ceil_div (length (description t)) chunk_size))
    ++ [task_frame t (description t)].
Proof.
  unfold reveal. rewrite py_range_step by (unfold chunk_size; lia).
  rewrite map_map, Nat.sub_0_r. simpl. f_equal. f_equal.
  apply map_ext. intros i. f_equal. f_equal. unfold chunk_size. lia.
Qed.

Lemma ceil_div_bounds (L : nat) :
  (L <= ceil_div L chunk_size * chunk_size) /\
  (forall i, i < ceil_div L chunk_size -> i * chunk_size < L).
Proof.
  unfold ceil_div, chunk_size.
  pose proof (Nat.div_mod (L + 4 - 1) 4 ltac:(lia)) as Hd.
  pose proof (Nat.mod_upper_bound (L + 4 - 1) 4 ltac:(lia)) as Hm.
  split; [lia|]. intros i Hi. lia.
Qed.

Lemma reveal_length (t : Task) :
  length (reveal t) = ceil_div (length (description t)) chunk_size + 2.
Proof.
  rewrite reveal_eq. simpl. rewrite length_app, length_map, length_seq.
  simpl. lia.
Qed.

(** Description of the [i]-th reveal frame, for [i <= k]. *)
Lemma reveal_desc (t : Task) (i : nat) :
  i <= ceil_div (length (description t)) chunk_size ->
  nth_error (reveal t) i
  = Some (task_frame t (firstn (i * chunk_size) (description t))).
Proof.
  intros Hi. rewrite reveal_eq. destruct i as [|i]; [reflexivity|].
  cbn [nth_error].
  rewrite nth_error_app1 by (rewrite length_map, length_seq; lia).
  rewrite nth_error_map, nth_error_seq.
  destruct (Nat.ltb_spec i (ceil_div (length (description t)) chunk_size));
    [|lia].
  cbn [option_map]. do 3 f_equal. lia.
Qed.

Lemma reveal_last (t : Task) :
  nth_error (reveal t) (ceil_div (length (description t)) chunk_size + 1)
  = Some (task_frame t (description t)).
Proof.
  rewrite reveal_eq. rewrite Nat.add_1_r. cbn [nth_error].
  rewrite nth_error_app2 by (rewrite length_map, length_seq; lia).
  rewrite length_map, length_seq, Nat.sub_diag. reflexivity.
Qed.

(** ** Identifiers *)

Lemma uuid_str_length (i : Z) : length (uuid_str i) = 36.
Proof.
  assert (H : length (hex32 i) = 32)
    by (unfold hex32; rewrite length_map, length_seq; reflexivity).
  unfold uuid_str, slice. cbv zeta.
  rewrite !length_app, !length_firstn, !length_skipn, H. reflexivity.
Qed.

Lemma ensure_id_nonempty (c : Task) (rnd : Z) : id (ensure_id c rnd) <> [].
Proof.
  unfold ensure_id. destruct (id c) eqn:E.
  - cbn [id set_id]. intros H. apply (f_equal (@length ascii)) in H.
    rewrite uuid_str_length in H. discriminate.
  - congruence.
Qed.

(** ** One execution of the planner node *)

Lemma node_step (res : Invoke) (rnd : Z) (st : AgentState) :
  let st' := apply_update st (generate_task_node res rnd st) in
  prompt st' = prompt st
  /\ ((tasks st' = tasks st /\ finished st' = true)
      \/ (exists c, res = returns c
                    /\ tasks st' = tasks st ++ [ensure_id c rnd]
                    /\ finished st' = false)).
Proof.
  destruct res as [[[c|] [|]]|e]; cbn; (split; [reflexivity|]).
  - left. split; reflexivity.
  - right. exists c. repeat split.
  - left. split; reflexivity.
  - left. split; reflexivity.
  - left. split; reflexivity.
Qed.

Lemma node_malformed (res : Invoke) (rnd : Z) (st : AgentState) :
  malformed_or_raised res ->
  apply_update st (generate_task_node res rnd st)
  = mkAgentState (prompt st) (tasks st) true.
Proof.
  destruct res as [[[c|] [|]]|e]; cbn; intros H;
    try reflexivity; destruct H as [H1 H2]; discriminate.
Qed.

Lemma node_returns (t : Task) (rnd : Z) (st : AgentState) :
  apply_update st (generate_task_node (returns t) rnd st)
  = mkAgentState (prompt st) (tasks st ++ [ensure_id t rnd]) false.
Proof. reflexivity. Qed.

Lemma node_rand_irrelevant (res : Invoke) (r1 r2 : Z) (st : AgentState) :
  (forall c b, res = Returned (mkTaskGeneration (Some c) b) -> id c <> []) ->
  generate_task_node res r1 st = generate_task_node res r2 st.
Proof.
  destruct res as [[[c|] [|]]|e]; intros H; try reflexivity.
  cbn. unfold ensure_id. destruct (id c) eqn:E; [|reflexivity].
  exfalso. exact (H c false eq_refl E).
Qed.

Lemma should_continue_planner (st : AgentState) :
  should_continue st = planner ->
  finished st = false /\ length (tasks st) < max_tasks.
Proof.
  unfold should_continue. destruct (finished st); [discriminate|].
  destruct (Nat.leb_spec max_tasks (length (tasks st))); [discriminate|].
  auto.
Qed.

Lemma last_cons_default (A : Type) (l : list A) :
  forall x d, last (x :: l) d = last l x.
Proof.
  induction l as [|y l IH]; intros x d; [reflexivity|].
  change (last (y :: l) d = last (y :: l) x). rewrite !IH. reflexivity.
Qed.

Lemma steps_ok_nth (a : AgentState) (l : list AgentState) :
  steps_ok a l ->
  forall i x y, nth_error (a :: l) i = Some x ->
                nth_error (a :: l) (S i) = Some y -> step_ok x y.
Proof.
  revert a. induction l as [|b l IH]; intros a Hs i x y Hx Hy.
  - destruct i; discriminate.
  - destruct Hs as [Hab Hs]. destruct i as [|i].
    + cbn in Hx, Hy. congruence.
    + exact (IH b Hs i x y Hx Hy).
Qed.

(** ** Runs of the graph *)

Section Runs.

Variable oracle : nat -> Invoke.
Variable rand : nat -> Z.

Lemma run_steps (fuel : nat) :
  forall call st, finished st = false -> length (tasks st) < max_tasks ->
  steps_ok st (fst (run_planner oracle rand fuel call st)).
Proof.
  induction fuel as [|f IH]; intros call st Hf Hl; [exact I|].
  cbn [run_planner].
  pose proof (node_step (oracle call) (rand call) st) as Hn. cbv zeta in Hn.
  remember (apply_update st (generate_task_node (oracle call) (rand call) st))
    as st' eqn:Est.
  destruct Hn as [_ Hn].
  assert (Hok : step_ok st st').
  { unfold step_ok.
    destruct Hn as [[Ht Hfin] | [c [_ [Ht Hfin]]]]; rewrite Ht;
      (split; [eauto | split; [congruence |]]).
    - lia.
    - rewrite length_app. cbn. unfold max_tasks in *. lia. }
  destruct (should_continue st') eqn:Hc.
  - split; [exact Hok | exact I].
  - destruct (should_continue_planner st' Hc) as [Hf' Hl'].
    specialize (IH (S call) st' Hf' Hl').
    destruct (run_planner oracle rand f (S call) st') as [l e].
    split; [exact Hok | exact IH].
Qed.

Lemma run_terminates (fuel : nat) :
  forall call st, finished st = false -> length (tasks st) < max_tasks ->
  max_tasks - length (tasks st) <= fuel ->
  snd (run_planner oracle rand fuel call st) = None
  /\ length (fst (run_planner oracle rand fuel call st))
     <= max_tasks - length (tasks st)
  /\ should_continue (last (fst (run_planner oracle rand fuel call st)) st)
     = END.
Proof.
  induction fuel as [|f IH]; intros call st Hf Hl Hfuel; [lia|].
  cbn [run_planner].
  pose proof (node_step (oracle call) (rand call) st) as Hn. cbv zeta in Hn.
  remember (apply_update st (generate_task_node (oracle call) (rand call) st))
    as st' eqn:Est.
  destruct Hn as [_ Hn].
  destruct (should_continue st') eqn:Hc.
  - cbn [fst snd Datatypes.length last]. unfold max_tasks in *. repeat split; [lia | exact Hc].
  - destruct (should_continue_planner st' Hc) as [Hf' Hl'].
    assert (Hlen : length (tasks st') = S (length (tasks st))).
    { destruct Hn as [[_ Hfin] | [c [_ [Ht _]]]]; [congruence|].
      rewrite Ht, length_app. cbn. lia. }
    destruct (IH (S call) st' Hf' Hl' ltac:(lia)) as [He [Hn' Hend]].
    destruct (run_planner oracle rand f (S call) st') as [l e].
    cbn [fst snd Datatypes.length] in *. rewrite last_cons_default. repeat split; [exact He | lia | exact Hend].
Qed.

Lemma gen_run (fuel : nat) :
  forall call st, finished st = false ->
  let l := fst (run_planner oracle rand fuel call st) in
  exists ts,
    tasks (last l st) = tasks st ++ ts
    /\ gen_states l (length (tasks st))
       = (flat_map reveal ts
          ++ (if finished (last l st) then [status_completed] else []),
          finished (last l st)).
Proof.
  induction fuel as [|f IH]; intros call st Hf; cbv zeta.
  - exists []. cbn. rewrite Hf, app_nil_r. split; reflexivity.
  - cbn [run_planner].
    pose proof (node_step (oracle call) (rand call) st) as Hn. cbv zeta in Hn.
    remember (apply_update st (generate_task_node (oracle call) (rand call) st))
      as st' eqn:Est.
    destruct Hn as [_ Hn].
    assert (Ht1 : exists ts1, tasks st' = tasks st ++ ts1).
    { destruct Hn as [[Ht _] | [c [_ [Ht _]]]]; eexists; [|exact Ht].
      rewrite Ht. symmetry. apply app_nil_r. }
    destruct Ht1 as [ts1 Ht1].
    destruct (should_continue st') eqn:Hc.
    + exists ts1. cbn [fst last]. split; [exact Ht1|].
      cbn [gen_states]. rewrite Ht1, new_frames_eq. try rewrite new_frames_sent.
      destruct (finished st'); [reflexivity|].
      cbn. rewrite !app_nil_r. reflexivity.
    + destruct (should_continue_planner st' Hc) as [Hf' _].
      destruct (IH (S call) st' Hf') as [ts2 [Ht2 Hg]].
      destruct (run_planner oracle rand f (S call) st') as [l e].
      cbn [fst] in *. rewrite last_cons_default.
      exists (ts1 ++ ts2). split; [rewrite Ht2, Ht1, app_assoc; reflexivity|].
      cbn [gen_states]. rewrite Hf'.
      rewrite Ht1 in Hg |- *. rewrite new_frames_eq, new_frames_sent, Hg.
      rewrite flat_map_app, app_assoc. reflexivity.
Qed.

Lemma run_fail (k : nat) :
  forall fuel call st, finished st = false ->
  length (tasks st) + k < max_tasks -> k < fuel ->
  (forall i, i < k -> exists t, oracle (call + i) = returns t) ->
  malformed_or_raised (oracle (call + k)) ->
  let l := fst (run_planner oracle rand fuel call st) in
  finished (last l st) = true
  /\ length (tasks (last l st)) = length (tasks st) + k
  /\ length l = S k.
Proof.
  induction k as [|k IH]; intros fuel call st Hf Hlen Hfuel Hret Hm; cbv zeta;
    (destruct fuel as [|f]; [lia|]); cbn [run_planner].
  - rewrite Nat.add_0_r in Hm. rewrite (node_malformed _ _ _ Hm).
    cbn. split; [reflexivity | split; [lia | reflexivity]].
  - destruct (Hret 0 ltac:(lia)) as [t Ht]. rewrite Nat.add_0_r in Ht.
    rewrite Ht, node_returns.
    set (st' := mkAgentState (prompt st) (tasks st ++ [ensure_id t (rand call)]) false).
    assert (Hl' : length (tasks st') = S (length (tasks st))).
    { unfold st'. cbn [tasks]. rewrite length_app. cbn. lia. }
    assert (Hc : should_continue st' = planner).
    { unfold should_continue. cbn [st' finished]. rewrite Hl'.
      destruct (Nat.leb_spec max_tasks (S (length (tasks st)))); [lia|reflexivity]. }
    rewrite Hc.
    destruct (IH f (S call) st') as [H1 [H2 H3]].
    + reflexivity.
    + lia.
    + lia.
    + intros i Hi. destruct (Hret (S i) ltac:(lia)) as [t' Ht'].
      exists t'. rewrite <- Ht'. f_equal. lia.
    + replace (S call + k) with (call + S k) by lia. exact Hm.
    + destruct (run_planner oracle rand f (S call) st') as [l e].
      cbn [fst] in *. rewrite last_cons_default. cbn [Datatypes.length].
      split; [exact H1 | split; lia].
Qed.

Lemma run_capped (k : nat) :
  forall fuel call st, finished st = false ->
  length (tasks st) + k = max_tasks -> 0 < k <= fuel ->
  (forall i, i < k -> exists t, oracle (call + i) = returns t) ->
  let l := fst (run_planner oracle rand fuel call st) in
  finished (last l st) = false
  /\ length (tasks (last l st)) = max_tasks
  /\ length l = k
  /\ snd (run_planner oracle rand fuel call st) = None.
Proof.
  induction k as [|k IH]; intros fuel call st Hf Hlen Hk Hret; cbv zeta; [lia|].
  destruct fuel as [|f]; [lia|]. cbn [run_planner].
  destruct (Hret 0 ltac:(lia)) as [t Ht]. rewrite Nat.add_0_r in Ht.
  rewrite Ht, node_returns.
  set (st' := mkAgentState (prompt st) (tasks st ++ [ensure_id t (rand call)]) false).
  assert (Hl' : length (tasks st') = S (length (tasks st))).
  { unfold st'. cbn [tasks]. rewrite length_app. cbn. lia. }
  destruct k as [|k].
  - assert (Hc : should_continue st' = END).
    { unfold should_continue. cbn [st' finished]. rewrite Hl'.
      destruct (Nat.leb_spec max_tasks (S (length (tasks st)))); [reflexivity|lia]. }
    rewrite Hc. cbn [fst snd last Datatypes.length].
    repeat split; [lia].
  - assert (Hc : should_continue st' = planner).
    { unfold should_continue. cbn [st' finished]. rewrite Hl'.
      destruct (Nat.leb_spec max_tasks (S (length (tasks st)))); [lia|reflexivity]. }
    rewrite Hc.
    destruct (IH f (S call) st') as [H1 [H2 [H3 H4]]].
    + reflexivity.
    + lia.
    + lia.
    + intros i Hi. destruct (Hret (S i) ltac:(lia)) as [t' Ht'].
      exists t'. rewrite <- Ht'. f_equal. lia.
    + destruct (run_planner oracle rand f (S call) st') as [l e].
      cbn [fst snd] in *. rewrite last_cons_default.
      cbn [Datatypes.length]. repeat split; [exact H1 | exact H2 | lia | exact H4].
Qed.

(** The frames of a run: the reveal of every task of the final state, then
    the completed frame iff the final state is marked finished. *)
Lemma stream_shape (project_prompt : str) :
  task_stream_generator oracle rand project_prompt
  = flat_map reveal (tasks (final_state oracle rand project_prompt))
    ++ (if finished (final_state oracle rand project_prompt)
        then [status_completed] else []).
Proof.
  unfold task_stream_generator, final_state, astream.
  pose proof (gen_run recursion_limit 0 (initial_state project_prompt)
                eq_refl) as Hg.
  pose proof (run_terminates recursion_limit 0 (initial_state project_prompt)
                eq_refl ltac:(cbn; unfold max_tasks; lia)
                ltac:(cbn; unfold max_tasks, recursion_limit; lia)) as [He _].
  cbv zeta in Hg.
  destruct (run_planner oracle rand recursion_limit 0 (initial_state project_prompt))
    as [l e].
  cbn [fst snd] in *. subst e. rewrite last_cons_default.
  destruct Hg as [ts [Ht Hg]]. cbn [tasks initial_state app] in Ht.
  cbn [gen_states]. cbn [tasks finished initial_state Datatypes.length Nat.ltb Nat.leb].
  cbn [tasks initial_state Datatypes.length] in Hg. rewrite Hg, Ht. destruct (finished (last l (initial_state project_prompt)));
    [reflexivity|]. reflexivity.
Qed.

End Runs.

(** ** Claims on the reveal of one task *)

(** C4 (as amended): a task whose description has length [L] is revealed
    in exactly [ceil(L / 4) + 2] frames: the empty-description frame, one
    frame per 4-character chunk, and the final frame; for [L = 0] that is
    2 frames. *)
Theorem reveal_frame_count (t : Task) :
  length (reveal t) = ceil_div (length (description t)) chunk_size + 2
  /\ (description t = [] -> length (reveal t) = 2).
Proof.
  rewrite reveal_length. split; [reflexivity|].
  intros H. rewrite H. reflexivity.
Qed.

(** C4 as stated fails: a 4-character description gives 3 frames, not
    [ceil(4 / 4) + 1 = 2]. *)
Lemma reveal_frame_count_ceil_plus_one_fails :
  ~ (forall t : Task, 0 < length (description t) ->
       length (reveal t) = ceil_div (length (description t)) chunk_size + 1).
Proof.
  intros H.
  assert (H1 := H (mk "a" "A" "abcd") ltac:(simpl; lia)).
  vm_compute in H1. discriminate.
Qed.

(** C5 (as amended): frame 0 has description [""]; frame [i], for
    [1 <= i <= k] with [k = ceil(L / 4)], has the first [min(L, 4 i)]
    characters; frame [k + 1], the last, is the complete task.  The
    descriptions of frames [0 .. k] grow strictly, and frame [k] already
    carries the full description, which the final frame repeats. *)
Theorem reveal_prefixes (t : Task) :
  let full := description t in
  let k := ceil_div (length full) chunk_size in
  let fr := reveal t in
  length fr = k + 2
  /\ nth_error fr 0 = Some (task_frame t [])
  /\ (forall i, 1 <= i <= k ->
        nth_error fr i
        = Some (task_frame t (firstn (Nat.min (length full) (i * chunk_size)) full)))
  /\ nth_error fr (k + 1) = Some (task_frame t full)
  /\ (forall i, i < k ->
        strict_prefix (frame_desc (nth i fr status_completed))
                      (frame_desc (nth (S i) fr status_completed)))
  /\ frame_desc (nth k fr status_completed) = full
  /\ frame_desc (nth (k + 1) fr status_completed) = full.
Proof.
  cbv zeta.
  destruct (ceil_div_bounds (length (description t))) as [Hk Hlt].
  assert (Hd : forall i, i <= ceil_div (length (description t)) chunk_size ->
            frame_desc (nth i (reveal t) status_completed)
            = firstn (i * chunk_size) (description t)).
  { intros i Hi. rewrite (nth_error_nth _ _ _ (reveal_desc t i Hi)).
    reflexivity. }
  split; [apply reveal_length|].
  split; [apply (reveal_desc t 0); lia|].
  split.
  { intros i Hi. rewrite reveal_desc by lia. now rewrite firstn_min_length. }
  split; [apply reveal_last|].
  split.
  { intros i Hi. rewrite !Hd by lia.
    apply firstn_strict_prefix; [unfold chunk_size; lia | apply Hlt; exact Hi]. }
  split.
  { rewrite Hd by lia. apply firstn_all2. exact Hk. }
  rewrite (nth_error_nth _ _ _ (reveal_last t)). reflexivity.
Qed.

(** C5 as stated fails: for the description ["abcd"] the frames carry
    [""], ["abcd"], ["abcd"]; the intermediate frame 1 is not a strict
    prefix of the final frame. *)
Lemma reveal_strict_prefix_fails :
  ~ (forall t : Task,
       frame_desc (nth 0 (reveal t) status_completed) = []
       /\ frame_desc (last (reveal t) status_completed) = description t
       /\ (forall i, 0 < i -> S i < length (reveal t) ->
             strict_prefix (frame_desc (nth i (reveal t) status_completed))
                           (frame_desc (nth (S i) (reveal t) status_completed)))).
Proof.
  intros H. destruct (H (mk "a" "A" "abcd")) as [_ [_ Hs]].
  destruct (Hs 1 ltac:(lia) ltac:(vm_compute; lia)) as [c [Hc Heq]].
  vm_compute in Heq.
  apply (f_equal (@length ascii)) in Heq. simpl in Heq.
  destruct c; [contradiction | simpl in Heq; lia].
Qed.

(** ** Further lemmas on runs *)

Lemma run_rand_irrelevant (oracle : nat -> Invoke) (r1 r2 : nat -> Z) :
  (forall i c b, oracle i = Returned (mkTaskGeneration (Some c) b) -> id c <> []) ->
  forall fuel call st,
  run_planner oracle r1 fuel call st = run_planner oracle r2 fuel call st.
Proof.
  intros Hids fuel. induction fuel as [|f IH]; intros call st; [reflexivity|].
  cbn [run_planner].
  rewrite (node_rand_irrelevant (oracle call) (r1 call) (r2 call) st)
    by (intros c b Hc; exact (Hids call c b Hc)).
  destruct (should_continue _); [reflexivity|]. rewrite IH. reflexivity.
Qed.

Lemma steps_ok_In (a : AgentState) (l : list AgentState) :
  steps_ok a l -> forall b, In b l -> length (tasks b) <= max_tasks.
Proof.
  revert a. induction l as [|c l IH]; intros a Hs b Hb; [destruct Hb|].
  destruct Hs as [[_ [_ Hc]] Hs]. destruct Hb as [<- | Hb]; [exact Hc|].
  exact (IH c Hs b Hb).
Qed.

Lemma reveal_frames (t : Task) :
  Forall (fun f => is_status f = false /\ frame_id f = Some (id t)) (reveal t).
Proof.
  rewrite reveal_eq. constructor; [split; reflexivity|].
  apply Forall_app. split; [|constructor; [split; reflexivity | constructor]].
  apply Forall_map. apply Forall_forall. intros. split; reflexivity.
Qed.

Lemma filter_status_reveal (ts : list Task) :
  filter is_status (flat_map reveal ts) = [].
Proof.
  induction ts as [|t ts IH]; [reflexivity|].
  cbn [flat_map]. rewrite filter_app, IH, app_nil_r.
  pose proof (reveal_frames t) as H.
  induction (reveal t) as [|f fr IHf]; [reflexivity|].
  inversion H as [|? ? [Hs _] Hr]; subst. cbn. rewrite Hs. exact (IHf Hr).
Qed.

(** Status frames of any run: none before the end; the only one possible
    is the completed frame, present iff the final state is finished. *)
Lemma stream_status_frames (oracle : nat -> Invoke) (rand : nat -> Z) (p : str) :
  filter is_status (task_stream_generator oracle rand p)
  = if finished (final_state oracle rand p) then [status_completed] else [].
Proof.
  rewrite stream_shape, filter_app, filter_status_reveal.
  destruct (finished _); reflexivity.
Qed.

Lemma final_state_eq (oracle : nat -> Invoke) (rand : nat -> Z) (p : str) :
  final_state oracle rand p
  = last (fst (run_planner oracle rand recursion_limit 0 (initial_state p)))
         (initial_state p).
Proof.
  unfold final_state, astream.
  destruct (run_planner oracle rand recursion_limit 0 (initial_state p)) as [l e].
  apply last_cons_default.
Qed.

Lemma oracle_calls_eq (oracle : nat -> Invoke) (rand : nat -> Z) (p : str) :
  oracle_calls oracle rand p
  = length (fst (run_planner oracle rand recursion_limit 0 (initial_state p))).
Proof.
  unfold oracle_calls, astream.
  destruct (run_planner oracle rand recursion_limit 0 (initial_state p)) as [l e].
  cbn. lia.
Qed.

(** A run in which the LLM returns a task on each of its first [max_tasks]
    calls. *)
Lemma capped_stream (oracle : nat -> Invoke) (rand : nat -> Z) (p : str) :
  (forall i, i < max_tasks -> exists t, oracle i = returns t) ->
  length (tasks (final_state oracle rand p)) = max_tasks
  /\ finished (final_state oracle rand p) = false
  /\ oracle_calls oracle rand p = max_tasks
  /\ task_stream_generator oracle rand p
     = flat_map reveal (tasks (final_state oracle rand p)).
Proof.
  intros Hret.
  destruct (run_capped oracle rand max_tasks recursion_limit 0 (initial_state p)
              eq_refl eq_refl ltac:(unfold max_tasks, recursion_limit; lia)
              Hret) as [H1 [H2 [H3 _]]].
  rewrite <- final_state_eq in H1, H2. rewrite <- oracle_calls_eq in H3.
  rewrite stream_shape, H1, app_nil_r.
  repeat split; assumption.
Qed.

(** ** Claims on the planner loop and the stream *)

(** C1 (as amended): when an LLM call raises or returns neither a task nor
    the finished flag, the node sets [finished] and the loop stops after
    that call; the generator then ends the stream with the [completed]
    status frame, not an error frame.  If the call numbered [n] (counting
    from 0) is the first such call, the stream is the reveal of exactly
    the [n] tasks returned before it, followed by one completed frame. *)
Theorem oracle_failure_ends_completed (oracle : nat -> Invoke) (rand : nat -> Z)
  (p : str) (n : nat) :
  n < max_tasks ->
  (forall i, i < n -> exists t, oracle i = returns t) ->
  malformed_or_raised (oracle n) ->
  oracle_calls oracle rand p = S n
  /\ finished (final_state oracle rand p) = true
  /\ exists ts, length ts = n
     /\ tasks (final_state oracle rand p) = ts
     /\ task_stream_generator oracle rand p = flat_map reveal ts ++ [status_completed].
Proof.
  intros Hn Hret Hm.
  destruct (run_fail oracle rand n recursion_limit 0 (initial_state p)
              eq_refl ltac:(cbn; lia) ltac:(unfold max_tasks, recursion_limit in *; lia)
              Hret Hm) as [H1 [H2 H3]].
  rewrite <- final_state_eq in H1, H2. rewrite <- oracle_calls_eq in H3.
  split; [exact H3|]. split; [exact H1|].
  exists (tasks (final_state oracle rand p)). split; [exact H2|]. split; [reflexivity|].
  rewrite stream_shape, H1. reflexivity.
Qed.

Lemma oracle_failure_ends_completed_witness :
  oracle_calls third_call_fails no_rand [] = 3
  /\ finished (final_state third_call_fails no_rand []) = true
  /\ exists ts, length ts = 2
     /\ tasks (final_state third_call_fails no_rand []) = ts
     /\ task_stream_generator third_call_fails no_rand []
        = flat_map reveal ts ++ [status_completed].
Proof.
  apply (oracle_failure_ends_completed third_call_fails no_rand [] 2).
  - unfold max_tasks. lia.
  - intros i Hi. destruct i as [|[|i]]; [eexists; reflexivity | eexists; reflexivity | lia].
  - vm_compute. exact I.
Defined.

(** C1 as stated fails: when the third LLM call raises, the stream does
    not end with an error status frame. *)
Lemma oracle_failure_no_error_frame :
  ~ (exists pre d, task_stream_generator third_call_fails no_rand []
                   = pre ++ [status_error d]).
Proof.
  intros [pre [d H]].
  apply (f_equal (fun l => last l status_completed)) in H.
  rewrite last_last in H. vm_compute in H. discriminate.
Qed.

(** C2 (code defect): when the LLM returns a task on every call, the loop
    stops at [max_tasks] tasks through [should_continue], but [finished]
    stays [false], so the generator's loop ends without a [break] and no
    completed frame is written: the stream is the reveal of the ten tasks
    and nothing else. *)
Theorem capped_run_has_no_completed_frame :
  length (tasks (final_state always_task no_rand [])) = max_tasks
  /\ oracle_calls always_task no_rand [] = max_tasks
  /\ task_stream_generator always_task no_rand []
     = flat_map reveal (tasks (final_state always_task no_rand []))
  /\ ~ In status_completed (task_stream_generator always_task no_rand []).
Proof.
  destruct (capped_stream always_task no_rand [])
    as [H1 [_ [H3 H4]]].
  { intros i _. eexists. reflexivity. }
  split; [exact H1|]. split; [exact H3|]. split; [exact H4|].
  rewrite H4. intros Hin.
  assert (Hf : In status_completed (filter is_status
                 (flat_map reveal (tasks (final_state always_task no_rand [])))))
    by (apply filter_In; split; [exact Hin | reflexivity]).
  rewrite filter_status_reveal in Hf. destruct Hf.
Qed.

(** C3 (code defect, same cause as C2): the capped run emits no status
    frame at all, so "exactly one status frame" fails there. *)
Theorem capped_run_has_no_status_frame :
  filter is_status (task_stream_generator always_task no_rand []) = []
  /\ finished (final_state always_task no_rand []) = false.
Proof.
  rewrite stream_status_frames.
  destruct (capped_stream always_task no_rand [])
    as [_ [H2 _]].
  { intros i _. eexists. reflexivity. }
  rewrite H2. split; reflexivity.
Qed.

(** C6: along every run, each step between two yielded states keeps the
    task list or appends exactly one task at its end, never resets
    [finished] from [true] to [false], and every yielded state holds at
    most [max_tasks] tasks. *)
Theorem planner_state_invariant (oracle : nat -> Invoke) (rand : nat -> Z) (p : str) :
  let sts := fst (astream oracle rand p) in
  (forall st, In st sts -> length (tasks st) <= max_tasks)
  /\ (forall i a b, nth_error sts i = Some a -> nth_error sts (S i) = Some b ->
        (tasks b = tasks a \/ exists t, tasks b = tasks a ++ [t])
        /\ (finished a = true -> finished b = true)).
Proof.
  cbv zeta. unfold astream.
  pose proof (run_steps oracle rand recursion_limit 0 (initial_state p)
                eq_refl ltac:(cbn; unfold max_tasks; lia)) as Hs.
  destruct (run_planner oracle rand recursion_limit 0 (initial_state p)) as [l e].
  cbn [fst] in *. split.
  - intros st [<- | Hin]; [cbn; unfold max_tasks; lia|].
    exact (steps_ok_In _ _ Hs st Hin).
  - intros i a b Ha Hb.
    destruct (steps_ok_nth _ _ Hs i a b Ha Hb) as [Ht [Hf _]].
    split; assumption.
Qed.

(** C7: for every LLM behaviour the loop reaches [END] through
    [should_continue] (never through the recursion limit) after at most
    [max_tasks + 1] LLM calls. *)
Theorem planner_terminates (oracle : nat -> Invoke) (rand : nat -> Z) (p : str) :
  snd (astream oracle rand p) = None
  /\ should_continue (final_state oracle rand p) = END
  /\ oracle_calls oracle rand p <= max_tasks + 1.
Proof.
  destruct (run_terminates oracle rand recursion_limit 0 (initial_state p)
              eq_refl ltac:(cbn; unfold max_tasks; lia)
              ltac:(cbn; unfold max_tasks, recursion_limit; lia)) as [He [Hl Hend]].
  rewrite final_state_eq, oracle_calls_eq. split; [|split; [exact Hend | lia]].
  unfold astream.
  destruct (run_planner oracle rand recursion_limit 0 (initial_state p)) as [l e].
  exact He.
Qed.

(** C8: a node execution either leaves the task list unchanged or appends
    the returned task, with its id kept when non-empty and replaced by
    [str(uuid.uuid4())] when empty; the appended id is never empty. *)
Theorem appended_task_id (res : Invoke) (rnd : Z) (st : AgentState) :
  let st' := apply_update st (generate_task_node res rnd st) in
  tasks st' = tasks st
  \/ exists c, res = returns c
     /\ tasks st' = tasks st ++ [ensure_id c rnd]
     /\ (id c <> [] -> ensure_id c rnd = c)
     /\ (id c = [] -> ensure_id c rnd = set_id c (uuid_str (uuid4 rnd)))
     /\ id (ensure_id c rnd) <> [].
Proof.
  pose proof (node_step res rnd st) as [_ [[Ht _] | [c [Hr [Ht _]]]]];
    cbv zeta in *; [left; exact Ht | right].
  exists c. split; [exact Hr|]. split; [exact Ht|].
  split; [|split; [|apply ensure_id_nonempty]].
  - intros Hc. unfold ensure_id. destruct (id c); [contradiction | reflexivity].
  - intros Hc. unfold ensure_id. rewrite Hc. reflexivity.
Qed.

(** C9: the task frames of a run are the reveals of the tasks stored in the
    final state, and every reveal frame of a stored task carries that
    task's id. *)
Theorem reveal_ids_match (oracle : nat -> Invoke) (rand : nat -> Z) (p : str) :
  let ts := tasks (final_state oracle rand p) in
  (exists tail, task_stream_generator oracle rand p = flat_map reveal ts ++ tail
                /\ forallb is_status tail = true)
  /\ (forall t, In t ts -> forall f, In f (reveal t) -> frame_id f = Some (id t)).
Proof.
  cbv zeta. split.
  - eexists. split; [apply stream_shape|].
    destruct (finished _); reflexivity.
  - intros t _ f Hf. pose proof (reveal_frames t) as H.
    rewrite Forall_forall in H. exact (proj2 (H f Hf)).
Qed.

(** C10: when every task the LLM returns already has a non-empty id, the
    frames depend on the LLM outcomes only: the random bits of [uuid4] do
    not influence them. *)
Theorem stream_deterministic (oracle : nat -> Invoke) (r1 r2 : nat -> Z) (p : str) :
  (forall i c b, oracle i = Returned (mkTaskGeneration (Some c) b) -> id c <> []) ->
  task_stream_generator oracle r1 p = task_stream_generator oracle r2 p.
Proof.
  intros Hids. unfold task_stream_generator, astream.
  rewrite (run_rand_irrelevant oracle r1 r2 Hids). reflexivity.
Qed.

Lemma stream_deterministic_witness :
  task_stream_generator always_task no_rand [] = task_stream_generator always_task (fun _ => 1%Z) [].
Proof.
  apply stream_deterministic.
  intros i c b H. unfold always_task, returns in H.
  injection H as Hc Hb. subst c. vm_compute. discriminate.
Defined.

(** ** Concrete checks of the model *)

Example uuid_str_zero :
  uuid_str (uuid4 0) = s "00000000-0000-4000-8000-000000000000".
Proof. vm_compute. reflexivity. Qed.

Example reveal_abcdef :
  map frame_desc (reveal (mk "t" "Task" "abcdef"))
  = [s ""; s "abcd"; s "abcdef"; s "abcdef"].
Proof. vm_compute. reflexivity. Qed.

Example third_call_fails_frames :
  map frame_desc (task_stream_generator third_call_fails no_rand [])
  = [s ""; s "abcd"; s "abcde"; s "abcde"; s ""; s ""; []]
  /\ last (task_stream_generator third_call_fails no_rand []) status_completed
     = status_completed.
Proof. vm_compute. split; reflexivity. Qed.

(** ** Encoding of frames *)




Lemma join_cons (sep x : str) (xs : list str) :
  join sep (x :: xs) = x ++ flat_map (fun y => sep ++ y) xs.
Proof.
  revert x. induction xs as [|y xs IH]; intros x.
  - cbn. rewrite app_nil_r. reflexivity.
  - change (join sep (x :: y :: xs)) with (x ++ sep ++ join sep (y :: xs)).
    rewrite IH. cbn [flat_map]. rewrite <- !app_assoc. reflexivity.
Qed.


Opaque json_string.






Transparent json_string.

(** ** Framing of the byte stream *)









(** ** The run in closed form *)

Lemma node_returned (res : Invoke) (rnd : Z) (st : AgentState) :
  apply_update st (generate_task_node res rnd st)
  = match returned_task res with
    | Some t => mkAgentState (prompt st) (tasks st ++ [ensure_id t rnd]) false
    | None => mkAgentState (prompt st) (tasks st) true
    end.
Proof.
  destruct res as [[[c|] [|]]|e]; reflexivity.
Qed.

Lemma run_planned (oracle : nat -> Invoke) (rand : nat -> Z) (fuel : nat) :
  forall call st, finished st = false -> length (tasks st) < max_tasks ->
  max_tasks - length (tasks st) <= fuel ->
  let l := fst (run_planner oracle rand fuel call st) in
  let ts := planned oracle rand (max_tasks - length (tasks st)) call in
  last l st = mkAgentState (prompt st) (tasks st ++ ts)
                (length ts <? max_tasks - length (tasks st))
  /\ length l = Nat.min (S (length ts)) (max_tasks - length (tasks st)).
Proof.
  induction fuel as [|f IH]; intros call st Hf Hl Hfuel; cbv zeta; [lia|].
  remember (max_tasks - length (tasks st)) as n eqn:En.
  destruct n as [|n']; [lia|].
  cbn [run_planner planned]. rewrite node_returned.
  destruct (returned_task (oracle call)) as [t|] eqn:Er.
  - set (st' := mkAgentState (prompt st) (tasks st ++ [ensure_id t (rand call)]) false).
    assert (Hl' : length (tasks st') = S (length (tasks st))).
    { unfold st'. cbn [tasks]. rewrite length_app. cbn. lia. }
    destruct n' as [|n''].
    + assert (Hc : should_continue st' = END).
      { unfold should_continue. cbn [st' finished]. rewrite Hl'.
        destruct (Nat.leb_spec max_tasks (S (length (tasks st)))); [reflexivity|lia]. }
      rewrite Hc. cbn. split; reflexivity.
    + assert (Hc : should_continue st' = planner).
      { unfold should_continue. cbn [st' finished]. rewrite Hl'.
        destruct (Nat.leb_spec max_tasks (S (length (tasks st)))); [lia|reflexivity]. }
      rewrite Hc.
      destruct (IH (S call) st' eq_refl ltac:(lia) ltac:(lia)) as [H1 H2].
      replace (max_tasks - length (tasks st')) with (S n'') in H1, H2 by lia.
      destruct (run_planner oracle rand f (S call) st') as [l e].
      cbn [fst] in *. rewrite last_cons_default, H1.
      cbn [st' prompt tasks Datatypes.length]. rewrite <- app_assoc.
      split; [reflexivity|]. rewrite H2. lia.
  - cbn. rewrite app_nil_r. split; reflexivity.
Qed.

Lemma final_state_planned (oracle : nat -> Invoke) (rand : nat -> Z) (p : str) :
  let ts := planned oracle rand max_tasks 0 in
  final_state oracle rand p = mkAgentState p ts (length ts <? max_tasks)
  /\ oracle_calls oracle rand p = Nat.min (S (length ts)) max_tasks.
Proof.
  rewrite final_state_eq, oracle_calls_eq.
  destruct (run_planned oracle rand recursion_limit 0 (initial_state p)
              eq_refl ltac:(cbn; unfold max_tasks; lia)
              ltac:(cbn; unfold max_tasks, recursion_limit; lia)) as [H1 H2].
  cbn [tasks initial_state prompt Datatypes.length app] in H1, H2.
  rewrite Nat.sub_0_r in H1, H2. cbv zeta. split; assumption.
Qed.

Lemma planned_ids (oracle : nat -> Invoke) (rand : nat -> Z) (n call : nat) :
  forall t, In t (planned oracle rand n call) -> id t <> [].
Proof.
  revert call. induction n as [|n IH]; intros call t Ht; [destruct Ht|].
  cbn [planned] in Ht. destruct (returned_task (oracle call)); [|destruct Ht].
  destruct Ht as [<- | Ht]; [apply ensure_id_nonempty | exact (IH _ t Ht)].
Qed.

Lemma planned_length (oracle : nat -> Invoke) (rand : nat -> Z) (n call : nat) :
  length (planned oracle rand n call) <= n.
Proof.
  revert call. induction n as [|n IH]; intros call; [reflexivity|].
  cbn [planned]. destruct (returned_task (oracle call)); cbn; [|lia].
  specialize (IH (S call)). lia.
Qed.

(** The outcome of a run: its task list is the tasks returned by the
    leading LLM calls that each return a task without [is_finished], at
    most [max_tasks] of them and with their ids filled; the run is marked
    finished iff fewer than [max_tasks] were collected, and the LLM is
    called once more than that, or [max_tasks] times when the cap is hit. *)
Theorem run_closed_form (oracle : nat -> Invoke) (rand : nat -> Z) (p : str) :
  let ts := planned oracle rand max_tasks 0 in
  tasks (final_state oracle rand p) = ts
  /\ finished (final_state oracle rand p) = (length ts <? max_tasks)
  /\ oracle_calls oracle rand p = Nat.min (S (length ts)) max_tasks.
Proof.
  destruct (final_state_planned oracle rand p) as [H1 H2].
  cbv zeta in *. rewrite H1. split; [reflexivity | split; [reflexivity | exact H2]].
Qed.

(** A call that returns [is_finished = True] ends the plan even when it
    carries a task: that task is dropped, neither stored nor streamed. *)
Theorem finished_task_dropped (oracle : nat -> Invoke) (rand : nat -> Z)
  (p : str) (n : nat) (t : Task) :
  n < max_tasks ->
  (forall i, i < n -> exists c, oracle i = returns c) ->
  oracle n = Returned (mkTaskGeneration (Some t) true) ->
  tasks (final_state oracle rand p)
  = map (fun i => match oracle i with
                  | Returned (mkTaskGeneration (Some c) _) => ensure_id c (rand i)
                  | _ => default_task
                  end) (seq 0 n)
  /\ finished (final_state oracle rand p) = true
  /\ task_stream_generator oracle rand p
     = flat_map reveal (tasks (final_state oracle rand p)) ++ [status_completed].
Proof.
  intros Hn Hret Ht.
  assert (Hp : forall k call, call <= n -> n < call + k ->
            planned oracle rand k call
            = map (fun i => match oracle i with
                            | Returned (mkTaskGeneration (Some c) _) => ensure_id c (rand i)
                            | _ => default_task
                            end) (seq call (Nat.min k (n - call)))).
  { induction k as [|k IH]; intros call Hc Hk; [reflexivity|].
    cbn [planned].
    destruct (Nat.eq_dec call n) as [->|Hne].
    - rewrite Ht. rewrite Nat.sub_diag, Nat.min_0_r. reflexivity.
    - destruct (Hret call ltac:(lia)) as [c Hcall]. rewrite Hcall.
      cbn [returned_task returns is_finished task].
      replace (Nat.min (S k) (n - call)) with (S (Nat.min k (n - S call))) by lia.
      cbn [seq map]. rewrite Hcall, (IH (S call)) by lia. reflexivity. }
  destruct (final_state_planned oracle rand p) as [H1 _]. cbv zeta in H1.
  rewrite (Hp max_tasks 0) in H1 by lia.
  rewrite Nat.sub_0_r, Nat.min_r in H1 by lia.
  rewrite stream_shape, H1. cbn [tasks finished].
  rewrite length_map, length_seq.
  destruct (Nat.ltb_spec n max_tasks); [|lia].
  repeat split.
Qed.

Lemma finished_task_dropped_witness :
  let o := fun i => match i with
                    | 0 => returns (mk "a" "A" "abcde")
                    | _ => Returned (mkTaskGeneration (Some (mk "b" "B" "")) true)
                    end in
  tasks (final_state o no_rand [])
  = map (fun i => match o i with
                  | Returned (mkTaskGeneration (Some c) _) => ensure_id c (no_rand i)
                  | _ => default_task
                  end) (seq 0 1)
  /\ finished (final_state o no_rand []) = true
  /\ task_stream_generator o no_rand []
     = flat_map reveal (tasks (final_state o no_rand [])) ++ [status_completed].
Proof.
  intros o. apply (finished_task_dropped o no_rand [] 1 (mk "b" "B" "")).
  - unfold max_tasks. lia.
  - intros i Hi. destruct i as [|i]; [eexists; reflexivity | lia].
  - reflexivity.
Defined.

(** ** Properties of every run *)




(** The [except] branch of the generator is dead: whatever the LLM does,
    no error status frame is ever yielded. *)
Theorem no_error_frame (oracle : nat -> Invoke) (rand : nat -> Z) (p : str) (d : str) :
  ~ In (status_error d) (task_stream_generator oracle rand p).
Proof.
  intros Hin.
  assert (Hf : In (status_error d) (filter is_status (task_stream_generator oracle rand p)))
    by (apply filter_In; split; [exact Hin | reflexivity]).
  rewrite stream_status_frames in Hf.
  destruct (finished _); [|destruct Hf].
  destruct Hf as [Hf | []]. discriminate Hf.
Qed.

(** When the completed frame is yielded, it is the last frame and it is
    yielded once. *)
Theorem completed_frame_last (oracle : nat -> Invoke) (rand : nat -> Z) (p : str) :
  In status_completed (task_stream_generator oracle rand p) ->
  exists pre, task_stream_generator oracle rand p = pre ++ [status_completed]
              /\ ~ In status_completed pre.
Proof.
  rewrite stream_shape. intros Hin.
  assert (Hr : ~ In status_completed (flat_map reveal (tasks (final_state oracle rand p)))).
  { intros H.
    assert (Hf : In status_completed
                   (filter is_status (flat_map reveal (tasks (final_state oracle rand p)))))
      by (apply filter_In; split; [exact H | reflexivity]).
    rewrite filter_status_reveal in Hf. destruct Hf. }
  destruct (finished _).
  - exists (flat_map reveal (tasks (final_state oracle rand p))). split; [reflexivity | exact Hr].
  - rewrite app_nil_r in Hin. contradiction.
Qed.

Lemma completed_frame_last_witness :
  In status_completed (task_stream_generator third_call_fails no_rand [])
  /\ exists pre, task_stream_generator third_call_fails no_rand [] = pre ++ [status_completed]
                 /\ ~ In status_completed pre.
Proof.
  assert (H : In status_completed (task_stream_generator third_call_fails no_rand [])).
  { vm_compute. right. right. right. right. right. right. left. reflexivity. }
  split; [exact H | exact (completed_frame_last third_call_fails no_rand [] H)].
Defined.

(** Every task frame of every run carries a non-empty id. *)
Theorem frame_ids_nonempty (oracle : nat -> Invoke) (rand : nat -> Z) (p : str) :
  forall f i, In f (task_stream_generator oracle rand p) -> frame_id f = Some i ->
  i <> [].
Proof.
  intros f i Hin Hi.
  rewrite stream_shape in Hin. apply in_app_or in Hin.
  destruct Hin as [Hin | Hin].
  - apply in_flat_map in Hin. destruct Hin as [t [Ht Hf]].
    pose proof (reveal_frames t) as Hr. rewrite Forall_forall in Hr.
    destruct (Hr f Hf) as [_ Hid]. rewrite Hi in Hid. injection Hid as ->.
    destruct (final_state_planned oracle rand p) as [Hs _]. cbv zeta in Hs.
    rewrite Hs in Ht. exact (planned_ids _ _ _ _ t Ht).
  - destruct (finished _); [|destruct Hin].
    destruct Hin as [<- | []]. discriminate Hi.
Qed.

Lemma frame_ids_nonempty_witness :
  In (TaskFrame (s "a") (s "A") [] [s "Backend"]) (task_stream_generator third_call_fails no_rand [])
  /\ frame_id (TaskFrame (s "a") (s "A") [] [s "Backend"]) = Some (s "a")
  /\ s "a" <> [].
Proof.
  assert (H : In (TaskFrame (s "a") (s "A") [] [s "Backend"])
                 (task_stream_generator third_call_fails no_rand [])).
  { vm_compute. left. reflexivity. }
  split; [exact H | split; [reflexivity|]].
  exact (frame_ids_nonempty third_call_fails no_rand [] _ (s "a") H eq_refl).
Defined.

(** Number of frames of a run: [ceil(len(description) / 4) + 2] per stored
    task, plus one when the run ends finished. *)
Theorem stream_length (oracle : nat -> Invoke) (rand : nat -> Z) (p : str) :
  length (task_stream_generator oracle rand p)
  = list_sum (map (fun t => ceil_div (length (description t)) chunk_size + 2)
                  (tasks (final_state oracle rand p)))
    + (if finished (final_state oracle rand p) then 1 else 0).
Proof.
  rewrite stream_shape, length_app.
  f_equal; [|destruct (finished _); reflexivity].
  induction (tasks (final_state oracle rand p)) as [|t ts IH]; [reflexivity|].
  cbn [flat_map map list_sum]. rewrite length_app, reveal_length, IH. reflexivity.
Qed.

(** ** The user message *)

(** The history is empty exactly when there are no tasks, since every line
    starts with ["- "] (even for a task with empty title and description);
    so the placeholder ["No tasks generated yet."] is sent exactly on the
    first call. *)
Theorem task_history_empty (current_tasks : list Task) :
  task_history current_tasks = [] <-> current_tasks = [].
Proof.
  split; [|intros ->; reflexivity].
  destruct current_tasks as [|t ts]; [reflexivity|].
  unfold task_history. cbn [map]. rewrite join_cons. discriminate.
Qed.

(** Appending a task to a non-empty list extends the history by a newline
    and that task's line. *)
Theorem task_history_snoc (current_tasks : list Task) (t : Task) :
  current_tasks <> [] ->
  task_history (current_tasks ++ [t])
  = task_history current_tasks ++ nl ++ task_line t.
Proof.
  intros Hne. destruct current_tasks as [|t0 ts]; [contradiction|].
  unfold task_history. rewrite map_app. cbn [map app].
  rewrite !join_cons, flat_map_app. cbn [flat_map].
  rewrite app_nil_r, !app_assoc. reflexivity.
Qed.

Lemma task_history_snoc_witness :
  [mk "a" "A" "x"] <> []
  /\ task_history ([mk "a" "A" "x"] ++ [mk "b" "B" "y"])
     = task_history [mk "a" "A" "x"] ++ nl ++ task_line (mk "b" "B" "y").
Proof.
  assert (H : [mk "a" "A" "x"] <> []) by discriminate.
  split; [exact H | exact (task_history_snoc _ _ H)].
Defined.

(** ** Format of generated ids *)

(** Rewrite every [Z.testbit c m] with [c] free of [x] to its value. *)
Ltac closed_bits x :=
  repeat match goal with
  | |- context [Z.testbit ?c ?m] =>
      lazymatch c with
      | context [x] => fail
      | _ => let v := eval vm_compute in (Z.testbit c m) in
             change (Z.testbit c m) with v
      end
  end.

Ltac uuid4_bit_tac :=
  intros r; unfold uuid4;
  repeat (rewrite Z.lor_spec || rewrite Z.land_spec || rewrite Z.lnot_spec by lia);
  closed_bits r;
  match goal with |- context [Z.testbit r ?m] => destruct (Z.testbit r m) end;
  reflexivity.

Lemma uuid4_bit76 (r : Z) : Z.testbit (uuid4 r) 76 = false.
Proof. revert r. uuid4_bit_tac. Qed.

Lemma uuid4_bit77 (r : Z) : Z.testbit (uuid4 r) 77 = false.
Proof. revert r. uuid4_bit_tac. Qed.

Lemma uuid4_bit78 (r : Z) : Z.testbit (uuid4 r) 78 = true.
Proof. revert r. uuid4_bit_tac. Qed.

Lemma uuid4_bit79 (r : Z) : Z.testbit (uuid4 r) 79 = false.
Proof. revert r. uuid4_bit_tac. Qed.

Lemma uuid4_bit62 (r : Z) : Z.testbit (uuid4 r) 62 = false.
Proof. revert r. uuid4_bit_tac. Qed.

Lemma uuid4_bit63 (r : Z) : Z.testbit (uuid4 r) 63 = true.
Proof. revert r. uuid4_bit_tac. Qed.

Lemma nibble_range (x k : Z) : (0 <= Z.land (Z.shiftr x k) 15 < 16)%Z.
Proof.
  change 15%Z with (Z.ones 4). rewrite Z.land_ones by lia.
  apply Z.mod_pos_bound. lia.
Qed.

Lemma nibble_bit (x k j : Z) : (0 <= k)%Z -> (0 <= j < 4)%Z ->
  Z.testbit (Z.land (Z.shiftr x k) 15) j = Z.testbit x (j + k)%Z.
Proof.
  intros Hk Hj. rewrite Z.land_spec, Z.shiftr_spec by lia.
  assert (H : (j = 0 \/ j = 1 \/ j = 2 \/ j = 3)%Z) by lia.
  destruct H as [-> | [-> | [-> | ->]]]; apply andb_true_r.
Qed.

Lemma nibble_value (v : Z) : (0 <= v < 16)%Z ->
  v = (Z.b2z (Z.testbit v 0) + 2 * Z.b2z (Z.testbit v 1)
       + 4 * Z.b2z (Z.testbit v 2) + 8 * Z.b2z (Z.testbit v 3))%Z.
Proof.
  intros Hv.
  assert (H : (v = 0 \/ v = 1 \/ v = 2 \/ v = 3 \/ v = 4 \/ v = 5 \/ v = 6 \/ v = 7
              \/ v = 8 \/ v = 9 \/ v = 10 \/ v = 11 \/ v = 12 \/ v = 13 \/ v = 14
              \/ v = 15)%Z) by lia.
  repeat destruct H as [-> | H]; try reflexivity; subst; reflexivity.
Qed.

Lemma hex_digit_in (v : Z) : (0 <= v < 16)%Z -> In (hex_digit v) (s "0123456789abcdef").
Proof.
  intros Hv.
  assert (H : (v = 0 \/ v = 1 \/ v = 2 \/ v = 3 \/ v = 4 \/ v = 5 \/ v = 6 \/ v = 7
              \/ v = 8 \/ v = 9 \/ v = 10 \/ v = 11 \/ v = 12 \/ v = 13 \/ v = 14
              \/ v = 15)%Z) by lia.
  repeat destruct H as [-> | H]; try subst;
    vm_compute; repeat (solve [left; reflexivity] || right).
Qed.

(** [str(uuid.uuid4())], the id given to a task returned without one, is a
    canonical version-4 UUID: 36 characters, dashes at positions 8, 13, 18
    and 23, lowercase hex digits elsewhere, the version digit [4] at
    position 14 and a variant digit among [8], [9], [a], [b] at
    position 19. *)
Theorem uuid4_str_format (rnd : Z) :
  let u := uuid_str (uuid4 rnd) in
  length u = 36
  /\ (forall k, k < 36 ->
        (In k [8; 13; 18; 23] /\ nth k u "0"%char = "-"%char)
        \/ (~ In k [8; 13; 18; 23] /\ In (nth k u "0"%char) (s "0123456789abcdef")))
  /\ nth 14 u "0"%char = "4"%char
  /\ In (nth 19 u "0"%char) (s "89ab").
Proof.
  cbv zeta. split; [apply uuid_str_length|]. split; [|split].
  - intros k Hk.
    do 36 (destruct k as [|k];
      [cbn -[hex_digit Z.land Z.shiftr];
       first [left; split; [tauto | reflexivity]
             | right; split; [intros H; lia | apply hex_digit_in, nibble_range]]
      |]).
    lia.
  - cbn -[hex_digit Z.land Z.shiftr].
    rewrite (nibble_value (Z.land (Z.shiftr (uuid4 rnd) 76) 15)) by apply nibble_range.
    rewrite !nibble_bit by lia. cbn [Z.add].
    rewrite uuid4_bit76, uuid4_bit77, uuid4_bit78, uuid4_bit79. reflexivity.
  - cbn -[hex_digit Z.land Z.shiftr].
    rewrite (nibble_value (Z.land (Z.shiftr (uuid4 rnd) 60) 15)) by apply nibble_range.
    rewrite !nibble_bit by lia.
    change (0 + 60)%Z with 60%Z. change (1 + 60)%Z with 61%Z.
    change (2 + 60)%Z with 62%Z. change (3 + 60)%Z with 63%Z.
    rewrite uuid4_bit62, uuid4_bit63.
    destruct (Z.testbit (uuid4 rnd) 60), (Z.testbit (uuid4 rnd) 61);
      vm_compute; repeat (solve [left; reflexivity] || right).
Qed.
